(** * Vacuum reflex agent: a shallow embedding of [vacuum.py]

    The room is a Python [Dict[int, int]]: a finite map from positions to
    dirt flags, modelled as [gmap Z Z].  Reading a missing key raises
    [KeyError]; assigning to a missing key inserts it.  The agent is the
    [Vacuum_cleaner] object: the room it holds plus four integer fields.
    The candidate actions are a [Dict[Callable, int]] whose keys are bound
    methods; its insertion order is what [pick_action] iterates over, so it
    is an association list. *)

From stdpp Require Import gmap list fin_maps.
From Stdlib Require Import ZArith Lia.

Local Open Scope Z_scope.

(** ** Exceptions and the error monad *)

Inductive exn : Type :=
  | KeyError (key : Z)          (* [self.environment[key]] on a missing key *)
  | TypeError_not_callable.     (* [action()] when [action] is [None] *)

Inductive result (A : Type) : Type :=
  | Ok (a : A)
  | Raise (e : exn).
Arguments Ok {A} a.
Arguments Raise {A} e.

Global Instance result_bind : MBind result := λ A B k m,
  match m with
  | Ok a => k a
  | Raise e => Raise e
  end.

(** ** Environment *)

Module Environment.

(** [self.environment[key]] *)
Definition getitem (environment : gmap Z Z) (key : Z) : result Z :=
  match environment !! key with
  | Some flag => Ok flag
  | None => Raise (KeyError key)
  end.

(** [len(self.environment)] *)
Definition len (environment : gmap Z Z) : Z := Z.of_nat (size environment).

Record Percept : Type := mkPercept {
  Left : option Z;
  Right : option Z;
  Centre : Z
}.

Definition get_environment (environment : gmap Z Z) (state : Z)
  : result Percept :=
  left ← (if 0 <? state - 1
          then flag ← getitem environment (state - 1) ; Ok (Some flag)
          else Ok None);
  right ← (if state + 1 <? len environment
           then flag ← getitem environment (state + 1) ; Ok (Some flag)
           else Ok None);
  centre ← getitem environment state;
  Ok {| Left := left; Right := right; Centre := centre |}.

(** [self.environment[state] = 0]: a dict assignment, which adds the key
    when it is not there. *)
Definition update_environment (environment : gmap Z Z) (state : Z)
  : gmap Z Z :=
  <[state := 0]> environment.

(** The loop returns [False] at the first room whose flag is 1 and [True]
    when there is none; the answer does not depend on the order in which
    the keys are visited. *)
Definition is_clean (environment : gmap Z Z) : bool :=
  forallb (fun room => negb (room.2 =? 1)) (map_to_list environment).

End Environment.

Import Environment.

(** ** The agent *)

Record Vacuum_cleaner : Type := mkVacuum {
  environment : gmap Z Z;
  state : Z;
  previous_state : Z;
  cost : Z;
  performance : Z
}.

Definition INITIAL_STATE : Z := 0.

(** [__init__], with the class attribute [INITIAL_STATE] as an argument. *)
Definition init_at (initial_state : Z) (room : gmap Z Z) : Vacuum_cleaner :=
  {| environment := room;
     state := initial_state;
     previous_state := 0;
     cost := 0;
     performance := 0 |}.

Definition init (room : gmap Z Z) : Vacuum_cleaner :=
  init_at INITIAL_STATE room.

(** The bound methods used as keys of the candidate dict. *)
Inductive action : Type := MoveLeft | MoveRight | Suck.

Global Instance action_eq_dec : EqDecision action.
Proof. solve_decision. Defined.

Definition move_left (self : Vacuum_cleaner) : Vacuum_cleaner :=
  {| environment := environment self;
     state := state self - 1;
     previous_state := state self;
     cost := cost self + 1;
     performance := performance self - 1 |}.

Definition move_right (self : Vacuum_cleaner) : Vacuum_cleaner :=
  {| environment := environment self;
     state := state self + 1;
     previous_state := state self;
     cost := cost self + 1;
     performance := performance self - 1 |}.

Definition suck (self : Vacuum_cleaner) : Vacuum_cleaner :=
  {| environment := update_environment (environment self) (state self);
     state := state self;
     previous_state := previous_state self;
     cost := cost self + 1;
     performance := performance self - 1 |}.

(** [action()] *)
Definition call (a : action) (self : Vacuum_cleaner) : Vacuum_cleaner :=
  match a with
  | MoveLeft => move_left self
  | MoveRight => move_right self
  | Suck => suck self
  end.

(** ** Rules and candidate actions *)

Record Rule : Type := mkRule {
  Move_left_q : bool;
  Move_right_q : bool;
  Suck_q : bool
}.

(** A [Dict[Callable, int]] in insertion order. *)
Definition actions_dict : Type := list (action * Z).

Definition keys (actions : actions_dict) : list action := actions.*1.

(** [actions[a]]; every use below reads a key taken from the dict itself,
    see [score_key]. *)
Definition dict_get (actions : actions_dict) (a : action) : option Z :=
  snd <$> find (fun kv => bool_decide (kv.1 = a)) actions.

Definition score (actions : actions_dict) (a : action) : Z :=
  default 0 (dict_get actions a).

Definition get_actions (rule : Rule) : actions_dict :=
  (if Move_left_q rule then [(MoveLeft, (-1) - 1)] else []) ++
  (if Move_right_q rule then [(MoveRight, (-1) - 1)] else []) ++
  (if Suck_q rule then [(Suck, 1 - 1)] else []).

Definition agent_function (percept : Percept) : actions_dict :=
  get_actions
    {| Move_left_q :=
         match Left percept with None => false | Some _ => true end;
       Move_right_q :=
         match Right percept with None => false | Some _ => true end;
       Suck_q := Centre percept =? 1 |}.

(** ** Selection *)

(** One iteration of the loop of [pick_action]. *)
Definition pick_step (actions : actions_dict) (avoid : option action)
    (action_to_pick : option action) (a : action) : option action :=
  match action_to_pick with
  | None =>
      if bool_decide (Some a ≠ avoid) then Some a else None
  | Some best =>
      if (score actions best <? score actions a)
         && bool_decide (Some a ≠ avoid)
      then Some a
      else Some best
  end.

Definition pick_action (actions : actions_dict) (avoid : option action)
  : option action :=
  fold_left (pick_step actions avoid) (keys actions) None.

(** Lines 99-109 of [run]: the avoided action is only computed when there is
    more than one candidate. *)
Definition avoid_of (self : Vacuum_cleaner) : option action :=
  if bool_decide (previous_state self = state self - 1) then Some MoveLeft
  else if bool_decide (previous_state self = state self + 1) then Some MoveRight
  else None.

Definition select (self : Vacuum_cleaner) (actions : actions_dict)
  : option action :=
  if 1 <? Z.of_nat (length actions)
  then pick_action actions (avoid_of self)
  else pick_action actions None.

(** ** The run loop *)

Inductive outcome : Type :=
  | Finished (total_cost : Z)        (* DONE: the cost that is reported *)
  | Running (self : Vacuum_cleaner)  (* the loop goes round again *)
  | Aborted (e : exn).               (* an exception leaves [run] *)

(** One pass through the body of [while not finished]. *)
Definition tick (self : Vacuum_cleaner) : outcome :=
  if is_clean (environment self) then Finished (cost self)
  else
    match get_environment (environment self) (state self) with
    | Raise e => Aborted e
    | Ok percept =>
        match select self (agent_function percept) with
        | None => Aborted TypeError_not_callable
        | Some a => Running (call a self)
        end
    end.

(** [run], cut off after [fuel] passes: [Running self] is then the agent
    still inside the loop. *)
Fixpoint run (fuel : nat) (self : Vacuum_cleaner) : outcome :=
  match fuel with
  | O => Running self
  | S fuel' =>
      match tick self with
      | Running self' => run fuel' self'
      | o => o
      end
  end.

(** The dict literal [{0: f0, 1: f1, ...}]. *)
Definition room_of (flags : list Z) : gmap Z Z := map_seqZ 0 flags.

(** The keys of [room] are exactly the positions [0 .. N-1]. *)
Definition dense (room : gmap Z Z) (N : Z) : Prop :=
  ∀ k, is_Some (room !! k) ↔ 0 ≤ k < N.

(** What the loop of [pick_action] has established after the keys [seen]:
    nothing is picked only if every key seen is the avoided one; otherwise
    the pick is the first of the keys seen that are not avoided and carry
    the largest score among them. *)
Definition picked (actions : actions_dict) (avoid : option action)
    (seen : list action) (pick : option action) : Prop :=
  match pick with
  | None => ∀ b, b ∈ seen → Some b = avoid
  | Some a =>
      Some a ≠ avoid ∧
      ∃ i, seen !! i = Some a ∧
        ∀ j b, seen !! j = Some b → Some b ≠ avoid →
          score actions b ≤ score actions a ∧
          ((j < i)%nat → score actions b < score actions a)
  end.

(** The [clean] of the specification (§4.1, §7), which refuses a position
    outside [[0, N)] with an out-of-range error; [update_environment] is
    compared with it. *)
Definition clean_spec (room : gmap Z Z) (N : Z) (p : Z)
  : result (gmap Z Z) :=
  if bool_decide (0 ≤ p < N) then Ok (<[p := 0]> room)
  else Raise (KeyError p).

(** The agent sweeps to the right: everything to its left is clean and it
    has come from its left neighbour, or it stands on cell 0 or 1, where no
    left neighbour is sensed. *)
Definition sweeping (N : Z) (self : Vacuum_cleaner) : Prop :=
  dense (environment self) N ∧
  0 ≤ state self < N ∧
  (∀ k flag, environment self !! k = Some flag → k < state self → flag ≠ 1) ∧
  (previous_state self = state self - 1 ∨ state self ≤ 1).

(** Two passes for each cell still to the right, one more when the cell
    under the agent is dirty. *)
Definition passes_left (N : Z) (self : Vacuum_cleaner) : nat :=
  (Z.to_nat (2 * (N - 1 - state self)) +
   match environment self !! state self with
   | Some flag => if (flag =? 1)%Z then 1 else 0
   | None => 0
   end)%nat.

(** [{0: 1, 1: 0, 2: 0}]: only cell 0 is dirty. *)
Definition room_100 : gmap Z Z := room_of [1; 0; 0].

(** The agent stands on a cell of a room with the keys [0 .. N-1]. *)
Definition in_room (N : Z) (self : Vacuum_cleaner) : Prop :=
  dense (environment self) N ∧ 0 ≤ state self < N.

(** The cells that [is_clean] objects to: those whose flag is 1. *)
Definition dirty (room : gmap Z Z) : gmap Z Z :=
  filter (λ cell, cell.2 = 1) room.

(** The room of [main]. *)
Definition main_room : gmap Z Z := room_of [0; 0; 1; 0; 1; 0; 1].

(** [main], with the fuel of [run]. *)
Definition main (fuel : nat) : outcome := run fuel (init main_room).

(** The sweep from position 0 towards the last dirty cell [d]: nothing is
    dirty beyond [d]; either [d] is still dirty and ahead, or the agent
    stands on [d] in a clean room; and the cost so far, the way to [d] and
    the number of dirty cells add up to [total]. *)
Definition sweeping_to (N d total : Z) (self : Vacuum_cleaner) : Prop :=
  sweeping N self ∧
  (∀ k, d < k → environment self !! k ≠ Some 1) ∧
  ((environment self !! d = Some 1 ∧ state self ≤ d) ∨
   (state self = d ∧ is_clean (environment self) = true)) ∧
  cost self + (d - state self) + Z.of_nat (size (dirty (environment self)))
    = total.

(** Passes until an agent on a cell other than 0 stands on cell 1: it goes
    to the right wall first when it is heading right, then back; one more
    pass when the cell under it is dirty. *)
Definition way_back (N : Z) (self : Vacuum_cleaner) : nat :=
  ((if bool_decide
         (previous_state self = state self - 1 ∧ state self + 1 < N)%Z
    then Z.to_nat (2 * N + 2 * (N - 1 - state self))
    else Z.to_nat (2 * (state self - 1))) +
   match environment self !! state self with
   | Some flag => if (flag =? 1)%Z then 1 else 0
   | None => 0
   end)%nat.

(** * Properties *)

(** ** The room *)

Section room.
Implicit Types (room : gmap Z Z) (flags : list Z).

Lemma dense_room_of flags : dense (room_of flags) (Z.of_nat (length flags)).
Proof.
  intros k. unfold room_of. rewrite lookup_map_seqZ_is_Some. lia.
Qed.

Lemma dense_dom room N :
  dense room N → dom room = list_to_set (seqZ 0 N).
Proof.
  intros Hd. apply set_eq. intros k.
  rewrite elem_of_dom, elem_of_list_to_set, elem_of_seqZ, (Hd k). lia.
Qed.

Lemma dense_len room N : 0 ≤ N → dense room N → len room = N.
Proof.
  intros HN Hd. unfold len.
  rewrite <- (size_dom room), (dense_dom room N Hd).
  rewrite size_list_to_set by apply NoDup_seqZ.
  rewrite length_seqZ. lia.
Qed.

Lemma dense_lookup room N k :
  dense room N → 0 ≤ k < N → ∃ flag, room !! k = Some flag.
Proof. intros Hd Hk. by apply (Hd k). Qed.

Lemma dense_lookup_None room N k :
  dense room N → ¬ (0 ≤ k < N) → room !! k = None.
Proof.
  intros Hd Hk. apply eq_None_not_Some. by rewrite (Hd k).
Qed.

Lemma dense_update room N p :
  dense room N → 0 ≤ p < N → dense (update_environment room p) N.
Proof.
  intros Hd Hp k. unfold update_environment.
  destruct (decide (p = k)) as [->|Hne].
  - rewrite lookup_insert_eq. split; [done | eauto].
  - rewrite lookup_insert_ne by done. apply Hd.
Qed.

Lemma getitem_Some room k flag :
  room !! k = Some flag → getitem room k = Ok flag.
Proof. unfold getitem. by intros ->. Qed.

Lemma getitem_None room k :
  room !! k = None → getitem room k = Raise (KeyError k).
Proof. unfold getitem. by intros ->. Qed.

Lemma is_clean_true room :
  is_clean room = true ↔ ∀ k flag, room !! k = Some flag → flag ≠ 1.
Proof.
  unfold is_clean. rewrite forallb_forall. split.
  - intros H k flag Hk.
    specialize (H (k, flag)). simpl in H.
    rewrite <- list_elem_of_In, elem_of_map_to_list in H.
    specialize (H Hk). apply negb_true_iff, Z.eqb_neq in H. done.
  - intros H [k flag] Hin. simpl.
    apply list_elem_of_In, elem_of_map_to_list in Hin.
    apply negb_true_iff, Z.eqb_neq. eauto.
Qed.

Lemma is_clean_false room :
  is_clean room = false ↔ ∃ k, room !! k = Some 1.
Proof.
  split.
  - unfold is_clean. intros Hf.
    assert (∃ kv, kv ∈ map_to_list room ∧ kv.2 = 1) as ([k flag] & Hin & Hd).
    { induction (map_to_list room) as [|kv l IH]; [done|].
      simpl in Hf. apply andb_false_iff in Hf as [Hf|Hf].
      - exists kv. split; [left|].
        by apply negb_false_iff, Z.eqb_eq in Hf.
      - destruct (IH Hf) as (kv' & Hin & Hd). exists kv'. split; [by right|done]. }
    simpl in Hd. subst flag. exists k. by apply elem_of_map_to_list.
  - intros [k Hk]. apply not_true_is_false. rewrite is_clean_true.
    intros H. by apply (H k 1).
Qed.

End room.

(** ** Sensing *)

Section sensing.
Implicit Types (room : gmap Z Z).

(** What [get_environment] computes inside a dense room.  The right
    neighbour and the centre are the flags at [p + 1] and [p]; the left
    neighbour is read only when [p - 1 > 0]. *)
Lemma get_environment_dense room N p :
  dense room N → 0 ≤ p < N →
  ∃ centre,
    room !! p = Some centre ∧
    get_environment room p =
      Ok {| Left := if 0 <? p - 1 then room !! (p - 1) else None;
            Right := if p + 1 <? N then room !! (p + 1) else None;
            Centre := centre |}.
Proof.
  intros Hd Hp.
  destruct (dense_lookup room N p Hd Hp) as [centre Hc].
  exists centre. split; [done|].
  unfold get_environment. rewrite (dense_len room N) by (done || lia).
  destruct (Z.ltb_spec 0 (p - 1)) as [Hl|Hl];
    destruct (Z.ltb_spec (p + 1) N) as [Hr|Hr].
  - destruct (dense_lookup room N (p - 1) Hd) as [l Hlk]; [lia|].
    destruct (dense_lookup room N (p + 1) Hd) as [r Hrk]; [lia|].
    rewrite (getitem_Some _ _ _ Hlk), (getitem_Some _ _ _ Hrk),
      (getitem_Some _ _ _ Hc), Hlk, Hrk. reflexivity.
  - destruct (dense_lookup room N (p - 1) Hd) as [l Hlk]; [lia|].
    rewrite (getitem_Some _ _ _ Hlk), (getitem_Some _ _ _ Hc), Hlk.
    reflexivity.
  - destruct (dense_lookup room N (p + 1) Hd) as [r Hrk]; [lia|].
    rewrite (getitem_Some _ _ _ Hrk), (getitem_Some _ _ _ Hc), Hrk.
    reflexivity.
  - rewrite (getitem_Some _ _ _ Hc). reflexivity.
Qed.

(** Reading the centre of a position that is not a key raises [KeyError],
    unless one of the neighbour reads has raised it before. *)
Lemma get_environment_missing room p :
  room !! p = None → ∃ k, get_environment room p = Raise (KeyError k).
Proof.
  intros Hp. unfold get_environment.
  assert (∀ left,
    ∃ k, ((if p + 1 <? len room
           then flag ← getitem room (p + 1); Ok (Some flag)
           else Ok None) ≫= λ right,
          centre ← getitem room p;
          Ok {| Left := left; Right := right; Centre := centre |})
         = Raise (KeyError k)) as Hright.
  { intros left. destruct (p + 1 <? len room).
    - destruct (room !! (p + 1)) as [r|] eqn:Er.
      + rewrite (getitem_Some _ _ _ Er), (getitem_None _ _ Hp).
        eexists; reflexivity.
      + rewrite (getitem_None _ _ Er). eexists; reflexivity.
    - rewrite (getitem_None _ _ Hp). eexists; reflexivity. }
  destruct (0 <? p - 1).
  - destruct (room !! (p - 1)) as [l|] eqn:El.
    + rewrite (getitem_Some _ _ _ El). apply Hright.
    + rewrite (getitem_None _ _ El). eexists; reflexivity.
  - apply Hright.
Qed.

End sensing.

(** C2.  At position 1 of the room [{0: 0, 1: 0, 2: 1}] the left neighbour
    is cell 0, whose flag is 0, but the percept has no left neighbour: the
    test [state - 1 > 0] leaves out [state = 1].  The right neighbour and
    the centre are the flags at 2 and 1. *)
Theorem get_environment_left_of_1 :
  room_of [0; 0; 1] !! (1 - 1) = Some 0 ∧
  get_environment (room_of [0; 0; 1]) 1 =
    Ok {| Left := None; Right := Some 1; Centre := 0 |}.
Proof. split; vm_compute; reflexivity. Qed.

(** C3.  In the room [{0: 1, 1: 0}], which is not clean, the agent at
    position 1 gets the empty candidate dict: the left neighbour is not
    sensed, there is no right neighbour and the centre is clean. *)
Theorem agent_function_empty_at_1 :
  is_clean (room_of [1; 0]) = false ∧
  0 ≤ 1 < len (room_of [1; 0]) ∧
  (percept ← get_environment (room_of [1; 0]) 1; Ok (agent_function percept))
    = Ok [].
Proof. repeat split; vm_compute; reflexivity || congruence. Qed.

(** C6, as stated, fails for [update_environment]: on the one-cell room
    [{0: 1}] the call at position 5 returns normally, with a room that holds
    the new key 5. *)
Lemma update_environment_outside_inserts :
  dense (room_of [1]) 1 ∧ ¬ (0 ≤ 5 < 1) ∧
  Ok (update_environment (room_of [1]) 5) ≠ clean_spec (room_of [1]) 1 5 ∧
  room_of [1] !! 5 = None ∧
  update_environment (room_of [1]) 5 !! 5 = Some 0 ∧
  len (update_environment (room_of [1]) 5) = 2.
Proof.
  split; [apply (dense_room_of [1])|].
  split; [lia|].
  split; [vm_compute; congruence|].
  repeat split; vm_compute; reflexivity.
Qed.

(** C6, amended.  Outside [[0, N)], [get_environment] raises [KeyError] (at
    the first missing key it reads: a neighbour or the centre), while
    [update_environment] does not fail: it adds the key [p] with flag 0,
    leaves the other cells as they are and so makes the room one key
    larger. *)
Theorem outside_the_room (room : gmap Z Z) (N p : Z) :
  dense room N → ¬ (0 ≤ p < N) →
  (∃ k, get_environment room p = Raise (KeyError k)) ∧
  room !! p = None ∧
  update_environment room p !! p = Some 0 ∧
  (∀ k, k ≠ p → update_environment room p !! k = room !! k) ∧
  len (update_environment room p) = len room + 1.
Proof.
  intros Hd Hp.
  pose proof (dense_lookup_None room N p Hd Hp) as Hnone.
  split; [by apply get_environment_missing|].
  split; [done|]. unfold update_environment.
  split; [apply lookup_insert_eq|].
  split; [intros k Hk; by apply lookup_insert_ne|].
  unfold len. rewrite map_size_insert_None by done. lia.
Qed.

Lemma outside_the_room_witness :
  (∃ k, get_environment (room_of [1]) 5 = Raise (KeyError k)) ∧
  room_of [1] !! 5 = None ∧
  update_environment (room_of [1]) 5 !! 5 = Some 0 ∧
  (∀ k, k ≠ 5 → update_environment (room_of [1]) 5 !! k = room_of [1] !! k) ∧
  len (update_environment (room_of [1]) 5) = len (room_of [1]) + 1.
Proof.
  apply (outside_the_room (room_of [1]) 1 5).
  - apply (dense_room_of [1]).
  - lia.
Defined.

(** ** Execution *)

(** C7.  [suck] adds 1 to the cost and takes 1 off the performance, like the
    two moves, although [get_actions] scores it with performance [+1]. *)
Theorem suck_decrements_performance (self : Vacuum_cleaner) :
  cost (suck self) = cost self + 1 ∧
  performance (suck self) = performance self - 1 ∧
  cost (move_left self) = cost self + 1 ∧
  performance (move_left self) = performance self - 1 ∧
  cost (move_right self) = cost self + 1 ∧
  performance (move_right self) = performance self - 1 ∧
  get_actions {| Move_left_q := false; Move_right_q := false; Suck_q := true |}
    = [(Suck, 1 - 1)].
Proof. repeat split. Qed.

(** C10.  [suck] keeps [state] and [previous_state] and changes no cell but
    the one at [state]; a move keeps the whole room, shifts [state] by one
    and stores the old [state] in [previous_state]. *)
Theorem actions_frame (self : Vacuum_cleaner) :
  (state (suck self) = state self ∧
   previous_state (suck self) = previous_state self ∧
   ∀ k, k ≠ state self → environment (suck self) !! k = environment self !! k) ∧
  (environment (move_left self) = environment self ∧
   state (move_left self) = state self - 1 ∧
   previous_state (move_left self) = state self) ∧
  (environment (move_right self) = environment self ∧
   state (move_right self) = state self + 1 ∧
   previous_state (move_right self) = state self).
Proof.
  repeat split. intros k Hk. simpl. unfold update_environment.
  by apply lookup_insert_ne.
Qed.

Lemma actions_frame_witness :
  let self := init (room_of [0; 1; 1]) in
  state (suck self) = 0 ∧ previous_state (suck self) = 0 ∧
  environment (suck self) !! 1 = Some 1 ∧
  state (move_right self) = 1 ∧ previous_state (move_right self) = 0.
Proof.
  intros self.
  destruct (actions_frame self) as ((Hs & Hp & Hk) & _ & (_ & Hr & Hq)).
  split; [exact Hs|]. split; [exact Hp|].
  split; [rewrite (Hk 1); [reflexivity | discriminate]|].
  split; [exact Hr | exact Hq].
Defined.

(** ** Selection *)

Section selection.
Variables (actions : actions_dict) (avoid : option action).

Lemma picked_step seen pick a :
  picked actions avoid seen pick →
  picked actions avoid (seen ++ [a]) (pick_step actions avoid pick a).
Proof.
  destruct pick as [best|]; simpl.
  - intros (Hbest & i & Hi & Hmax).
    assert (i < length seen)%nat as Hlt by eauto using lookup_lt_Some.
    destruct (Z.ltb_spec (score actions best) (score actions a)) as [Hs|Hs];
      simpl; [case_bool_decide as Ha|].
    + split; [done|]. exists (length seen). split.
      * by rewrite lookup_app_r, Nat.sub_diag.
      * intros j b Hj Hb.
        destruct (decide (j < length seen)%nat) as [Hjl|Hjl].
        -- rewrite lookup_app_l in Hj by done.
           destruct (Hmax j b Hj Hb) as [Hle _]. lia.
        -- rewrite lookup_app_r in Hj by lia.
           apply list_lookup_singleton_Some in Hj as [Hj ->]. lia.
    + split; [done|]. exists i. split; [by apply lookup_app_l_Some|].
      intros j b Hj Hb.
      destruct (decide (j < length seen)%nat) as [Hjl|Hjl].
      * rewrite lookup_app_l in Hj by done. by apply Hmax.
      * rewrite lookup_app_r in Hj by lia.
        apply list_lookup_singleton_Some in Hj as [_ ->]. done.
    + split; [done|]. exists i. split; [by apply lookup_app_l_Some|].
      intros j b Hj Hb.
      destruct (decide (j < length seen)%nat) as [Hjl|Hjl].
      * rewrite lookup_app_l in Hj by done. by apply Hmax.
      * rewrite lookup_app_r in Hj by lia.
        apply list_lookup_singleton_Some in Hj as [Hj ->]. lia.
  - intros Hnone. case_bool_decide as Ha; simpl.
    + split; [done|]. exists (length seen). split.
      * by rewrite lookup_app_r, Nat.sub_diag.
      * intros j b Hj Hb.
        destruct (decide (j < length seen)%nat) as [Hjl|Hjl].
        -- rewrite lookup_app_l in Hj by done.
           exfalso. apply Hb, Hnone. by eapply list_elem_of_lookup_2.
        -- rewrite lookup_app_r in Hj by lia.
           apply list_lookup_singleton_Some in Hj as [Hj ->]. lia.
    + intros b [Hb|Hb]%elem_of_app; [by apply Hnone|].
      apply list_elem_of_singleton in Hb as ->.
      by destruct (decide (Some a = avoid)).
Qed.

Lemma picked_fold rest : ∀ seen pick,
  picked actions avoid seen pick →
  picked actions avoid (seen ++ rest)
    (fold_left (pick_step actions avoid) rest pick).
Proof.
  induction rest as [|a rest IH]; intros seen pick Hp; simpl.
  - by rewrite app_nil_r.
  - rewrite (cons_middle a seen rest), app_assoc.
    apply IH. by apply picked_step.
Qed.

Lemma pick_action_picked :
  picked actions avoid (keys actions) (pick_action actions avoid).
Proof.
  unfold pick_action. apply (picked_fold (keys actions) [] None).
  intros b Hb. by apply elem_of_nil in Hb.
Qed.

End selection.

(** Under the invariant of a dict, that no key occurs twice, [actions[a]] is
    the score stored next to [a]. *)
Lemma score_lookup (actions : actions_dict) (i : nat) (a : action) (z : Z) :
  NoDup (keys actions) → actions !! i = Some (a, z) → score actions a = z.
Proof.
  unfold score, dict_get, keys. revert i.
  induction actions as [|[k w] l IH]; intros i Hnd Hi; [done|].
  apply NoDup_cons in Hnd as [Hk Hnd]. destruct i as [|i]; simpl in *.
  - injection Hi as -> ->. by rewrite bool_decide_eq_true_2.
  - rewrite bool_decide_eq_false_2; [by eapply IH|].
    intros ->. apply Hk. apply list_elem_of_fmap. exists (a, z).
    split; [done|]. by eapply list_elem_of_lookup_2.
Qed.

(** Every key the loop reads has a score. *)
Lemma score_key (actions : actions_dict) (a : action) :
  a ∈ keys actions → is_Some (dict_get actions a).
Proof.
  unfold dict_get, keys.
  induction actions as [|[k w] l IH]; simpl; [by intros ?%elem_of_nil|].
  intros [->|Hin]%elem_of_cons.
  - rewrite bool_decide_eq_true_2 by done. by eexists.
  - case_bool_decide; [by eexists | by apply IH].
Qed.

(** [pick_action] returns [None] only when every key is the avoided one. *)
Lemma pick_action_None (actions : actions_dict) (avoid : option action) :
  pick_action actions avoid = None → ∀ b, b ∈ keys actions → Some b = avoid.
Proof.
  intros Hp. pose proof (pick_action_picked actions avoid) as H.
  by rewrite Hp in H.
Qed.

Lemma pick_action_Some (actions : actions_dict) (avoid : option action) a :
  pick_action actions avoid = Some a → a ∈ keys actions ∧ Some a ≠ avoid.
Proof.
  intros Hp. pose proof (pick_action_picked actions avoid) as H.
  rewrite Hp in H. destruct H as (Ha & i & Hi & _).
  split; [by eapply list_elem_of_lookup_2 | done].
Qed.

(** C9.  Equal candidate dicts and equal avoided actions give the same pick,
    and the pick is the first candidate, in the dict's order, among the
    candidates that are not avoided and have the largest score; there is no
    pick only when every candidate is the avoided one. *)
Theorem pick_action_first_best
    (actions1 actions2 : actions_dict) (avoid1 avoid2 : option action) :
  NoDup (keys actions1) → actions1 = actions2 → avoid1 = avoid2 →
  pick_action actions1 avoid1 = pick_action actions2 avoid2 ∧
  match pick_action actions1 avoid1 with
  | None => ∀ b, b ∈ keys actions1 → Some b = avoid1
  | Some a =>
      Some a ≠ avoid1 ∧
      ∃ i z, actions1 !! i = Some (a, z) ∧
        ∀ j b w, actions1 !! j = Some (b, w) → Some b ≠ avoid1 →
          w ≤ z ∧ ((j < i)%nat → w < z)
  end.
Proof.
  intros Hnd <- <-. split; [reflexivity|].
  pose proof (pick_action_picked actions1 avoid1) as H.
  destruct (pick_action actions1 avoid1) as [a|]; [|exact H].
  destruct H as (Ha & i & Hi & Hmax). split; [done|].
  apply list_lookup_fmap_Some_1 in Hi as ([a' z] & -> & Hi). simpl in *.
  exists i, z. split; [done|]. intros j b w Hj Hb.
  rewrite <- (score_lookup actions1 i a' z Hnd Hi).
  rewrite <- (score_lookup actions1 j b w Hnd Hj).
  apply Hmax; [|done].
  by apply (list_lookup_fmap_Some_2 fst) in Hj.
Qed.

Lemma pick_action_first_best_witness :
  let actions := [(MoveLeft, -2); (MoveRight, -2); (Suck, 0)] in
  let avoid := Some MoveLeft in
  pick_action actions avoid = pick_action actions avoid ∧
  match pick_action actions avoid with
  | None => ∀ b, b ∈ keys actions → Some b = avoid
  | Some a =>
      Some a ≠ avoid ∧
      ∃ i z, actions !! i = Some (a, z) ∧
        ∀ j b w, actions !! j = Some (b, w) → Some b ≠ avoid →
          w ≤ z ∧ ((j < i)%nat → w < z)
  end.
Proof.
  intros actions avoid.
  apply (pick_action_first_best actions actions avoid avoid).
  - refine (bool_decide_unpack (NoDup (keys actions)) _). vm_compute. exact I.
  - reflexivity.
  - reflexivity.
Defined.

(** C8.  The selection of [run] always yields an action when there is a
    candidate, and a lone candidate is selected even when it is the action
    that the previous position says to avoid. *)
Theorem select_never_None (self : Vacuum_cleaner) (actions : actions_dict) :
  NoDup (keys actions) → actions ≠ [] →
  (∃ a, select self actions = Some a ∧ a ∈ keys actions) ∧
  (∀ a z, actions = [(a, z)] → select self actions = Some a).
Proof.
  intros Hnd Hne. split.
  - unfold select.
    destruct (Z.ltb_spec 1 (Z.of_nat (length actions))) as [Hlen|Hlen].
    + destruct (pick_action actions (avoid_of self)) as [a|] eqn:Hp.
      * exists a. split; [done|]. by apply pick_action_Some in Hp as [? _].
      * exfalso. pose proof (pick_action_None _ _ Hp) as Hall.
        destruct actions as [|[a z] [|[b w] l]]; simpl in Hlen; try lia.
        apply NoDup_cons in Hnd as [Hab _]. apply Hab.
        assert (Some a = Some b) as [= ->].
        { rewrite (Hall a), (Hall b); [done | set_solver | set_solver]. }
        set_solver.
    + destruct (pick_action actions None) as [a|] eqn:Hp.
      * exists a. split; [done|]. by apply pick_action_Some in Hp as [? _].
      * exfalso. pose proof (pick_action_None _ _ Hp) as Hall.
        destruct actions as [|[a z] l]; [done|].
        specialize (Hall a). discriminate Hall. set_solver.
  - intros a z ->. unfold select, pick_action. simpl. reflexivity.
Qed.

Lemma select_never_None_witness :
  let self := move_right (init (room_of [0; 0])) in
  let actions := [(MoveLeft, -2)] in
  avoid_of self = Some MoveLeft ∧
  (∃ a, select self actions = Some a ∧ a ∈ keys actions) ∧
  (∀ a z, actions = [(a, z)] → select self actions = Some a).
Proof.
  intros self actions. split; [reflexivity|].
  apply (select_never_None self actions).
  - apply NoDup_singleton.
  - discriminate.
Defined.

(** ** The run loop *)

(** C5.  With no candidate and a room that is not clean, the selection
    yields [None] and calling it raises [TypeError]: the exception leaves
    [run] and no action is executed. *)
Theorem empty_candidates_abort (self : Vacuum_cleaner) (percept : Percept) :
  is_clean (environment self) = false →
  get_environment (environment self) (state self) = Ok percept →
  agent_function percept = [] →
  select self (agent_function percept) = None ∧
  tick self = Aborted TypeError_not_callable ∧
  ∀ fuel, run (S fuel) self = Aborted TypeError_not_callable.
Proof.
  intros Hdirty Hsense Hempty.
  assert (tick self = Aborted TypeError_not_callable) as Htick.
  { unfold tick. by rewrite Hdirty, Hsense, Hempty. }
  split; [by rewrite Hempty|]. split; [done|].
  intros fuel. simpl. by rewrite Htick.
Qed.

Lemma empty_candidates_abort_witness :
  let self := init_at 1 (room_of [1; 0]) in
  let percept := {| Left := None; Right := None; Centre := 0 |} in
  select self (agent_function percept) = None ∧
  tick self = Aborted TypeError_not_callable ∧
  ∀ fuel, run (S fuel) self = Aborted TypeError_not_callable.
Proof.
  intros self percept.
  apply (empty_candidates_abort self percept); vm_compute; reflexivity.
Defined.

(** [main]: the room of the script is cleaned with total cost 9. *)
Example run_main :
  run 10 (init (room_of [0; 0; 1; 0; 1; 0; 1])) = Finished 9.
Proof. vm_compute. reflexivity. Qed.

(** C4.  The run on [{0: 0, 1: 0, 2: 1}] from position 0, pass by pass.
    The positions, the actions and the costs are the expected ones, but in
    the second pass, at position 1, the percept has no left neighbour and
    [move_right] is the only candidate, so that no action is avoided. *)
Theorem run_001_from_0 :
  let room := room_of [0; 0; 1] in
  let self0 := init room in
  let self1 := move_right self0 in
  let self2 := move_right self1 in
  let self3 := suck self2 in
  (get_environment room 0 = Ok {| Left := None; Right := Some 0; Centre := 0 |} ∧
   agent_function {| Left := None; Right := Some 0; Centre := 0 |}
     = [(MoveRight, -2)] ∧
   tick self0 = Running self1 ∧ state self1 = 1 ∧ cost self1 = 1) ∧
  (get_environment room 1 = Ok {| Left := None; Right := Some 1; Centre := 0 |} ∧
   agent_function {| Left := None; Right := Some 1; Centre := 0 |}
     = [(MoveRight, -2)] ∧
   avoid_of self1 = Some MoveLeft ∧
   tick self1 = Running self2 ∧ state self2 = 2 ∧ cost self2 = 2) ∧
  (get_environment room 2 = Ok {| Left := Some 0; Right := None; Centre := 1 |} ∧
   agent_function {| Left := Some 0; Right := None; Centre := 1 |}
     = [(MoveLeft, -2); (Suck, 0)] ∧
   tick self2 = Running self3 ∧ state self3 = 2 ∧ cost self3 = 3 ∧
   environment self3 = room_of [0; 0; 0]) ∧
  tick self3 = Finished 3 ∧
  run 4 self0 = Finished 3.
Proof. vm_compute. repeat split. Qed.

Lemma run_add (n m : nat) (self : Vacuum_cleaner) :
  run (n + m) self =
    match run n self with
    | Running self' => run m self'
    | o => o
    end.
Proof.
  revert self. induction n as [|n IH]; intros self; simpl; [done|].
  destruct (tick self); auto.
Qed.

(** *** The run on [{0: 1, 1: 0, 2: 1}] from position 1 *)

(** At position 1 the left neighbour is not sensed: the agent goes back
    to the right. *)
Lemma bounce_at_1 c p :
  tick (mkVacuum room_100 1 2 c p) = Running (mkVacuum room_100 2 1 (c + 1) (p - 1)).
Proof.
  unfold tick. cbn [environment state].
  replace (is_clean room_100) with false by (vm_compute; reflexivity).
  replace (get_environment room_100 1)
    with (Ok {| Left := None; Right := Some 0; Centre := 0 |})
    by (vm_compute; reflexivity).
  reflexivity.
Qed.

(** At position 2 there is nothing to the right and nothing to clean. *)
Lemma bounce_at_2 c p :
  tick (mkVacuum room_100 2 1 c p) = Running (mkVacuum room_100 1 2 (c + 1) (p - 1)).
Proof.
  unfold tick. cbn [environment state].
  replace (is_clean room_100) with false by (vm_compute; reflexivity).
  replace (get_environment room_100 2)
    with (Ok {| Left := Some 0; Right := None; Centre := 0 |})
    by (vm_compute; reflexivity).
  reflexivity.
Qed.

Lemma bounce_forever fuel :
  (∀ c p, ∃ c' p',
     run fuel (mkVacuum room_100 1 2 c p) = Running (mkVacuum room_100 1 2 c' p') ∨
     run fuel (mkVacuum room_100 1 2 c p) = Running (mkVacuum room_100 2 1 c' p')) ∧
  (∀ c p, ∃ c' p',
     run fuel (mkVacuum room_100 2 1 c p) = Running (mkVacuum room_100 1 2 c' p') ∨
     run fuel (mkVacuum room_100 2 1 c p) = Running (mkVacuum room_100 2 1 c' p')).
Proof.
  induction fuel as [|fuel [IH1 IH2]].
  - split; intros c p; exists c, p; simpl; auto.
  - split; intros c p; simpl.
    + rewrite bounce_at_1. apply IH2.
    + rewrite bounce_at_2. apply IH1.
Qed.

(** C1.  On [{0: 1, 1: 0, 2: 1}] from position 1 the loop never reaches
    DONE: the agent moves right, cleans cell 2 and from then on goes to and
    fro between the cells 1 and 2, while cell 0 stays dirty.  Whatever the
    number of passes, the agent is still in the loop. *)
Theorem run_101_from_1_never_finishes (fuel : nat) :
  ∃ self,
    run fuel (init_at 1 (room_of [1; 0; 1])) = Running self ∧
    environment self !! 0 = Some 1 ∧
    is_clean (environment self) = false ∧
    1 ≤ state self ≤ 2.
Proof.
  destruct (decide (fuel < 3)%nat) as [Hlt|Hge].
  - destruct fuel as [|[|[|fuel]]]; [| | |lia];
      eexists; (split; [vm_compute; reflexivity|]);
      repeat split; vm_compute; congruence.
  - replace fuel with (3 + (fuel - 3))%nat by lia.
    rewrite run_add.
    replace (run 3 (init_at 1 (room_of [1; 0; 1])))
      with (Running (mkVacuum room_100 1 2 3 (-3)))
      by (vm_compute; reflexivity).
    destruct (bounce_forever (fuel - 3)) as [H _].
    destruct (H 3 (-3)) as (c' & p' & [-> | ->]);
      eexists; (split; [reflexivity|]);
      repeat split; vm_compute; congruence.
Qed.

(** *** The run from [INITIAL_STATE] *)

Lemma select_suck (self : Vacuum_cleaner) (percept : Percept) :
  Centre percept = 1 → select self (agent_function percept) = Some Suck.
Proof.
  intros Hc. unfold agent_function, get_actions. rewrite Hc. simpl.
  assert (avoid_of self = Some MoveLeft ∨ avoid_of self = Some MoveRight ∨
          avoid_of self = None) as Havoid.
  { unfold avoid_of. repeat case_bool_decide; auto. }
  unfold select.
  destruct (Left percept), (Right percept);
    destruct Havoid as [-> | [-> | ->]]; reflexivity.
Qed.

Lemma select_move_right (self : Vacuum_cleaner) (percept : Percept) r :
  Centre percept ≠ 1 → Right percept = Some r →
  (Left percept ≠ None → avoid_of self = Some MoveLeft) →
  select self (agent_function percept) = Some MoveRight.
Proof.
  intros Hc Hr Hl. unfold agent_function, get_actions.
  rewrite Hr. apply Z.eqb_neq in Hc. rewrite Hc. simpl.
  destruct (Left percept) as [l|]; unfold select; simpl.
  - rewrite Hl by done. reflexivity.
  - reflexivity.
Qed.

Lemma tick_clean (self : Vacuum_cleaner) :
  is_clean (environment self) = true → tick self = Finished (cost self).
Proof. intros Hc. unfold tick. by rewrite Hc. Qed.

Lemma sweeping_step (N : Z) (self : Vacuum_cleaner) :
  sweeping N self → is_clean (environment self) = false →
  ∃ self', tick self = Running self' ∧ sweeping N self' ∧
           (passes_left N self' < passes_left N self)%nat.
Proof.
  intros (Hd & Hp & Hleft & Hprev) Hdirty.
  apply is_clean_false in Hdirty as [k Hk].
  assert (0 ≤ k < N) as HkN by (apply (Hd k); eauto).
  assert (state self ≤ k) as Hge.
  { destruct (Z.le_gt_cases (state self) k) as [|Hlt]; [done|].
    by destruct (Hleft k 1 Hk Hlt). }
  destruct (get_environment_dense _ N _ Hd Hp) as (centre & Hc & Hsense).
  assert (is_clean (environment self) = false) as Hdirty
    by (apply is_clean_false; eauto).
  unfold tick. rewrite Hdirty, Hsense.
  destruct (decide (centre = 1)) as [->|Hcentre].
  - rewrite select_suck by done. eexists. split; [reflexivity|]. split.
    + split; [by apply dense_update|]. split; [done|]. split; [|done].
      simpl. unfold update_environment. intros j flag Hj Hlt.
      rewrite lookup_insert_ne in Hj by lia. by eapply Hleft.
    + unfold passes_left. simpl. unfold update_environment.
      rewrite lookup_insert_eq, Hc. simpl. lia.
  - assert (state self < k) as Hlt.
    { destruct (decide (state self = k)) as [Heq|]; [|lia].
      rewrite Heq, Hk in Hc. congruence. }
    destruct (dense_lookup _ N (state self + 1) Hd) as [r Hr]; [lia|].
    rewrite (select_move_right _ _ r); [|done|..].
    + eexists. split; [reflexivity|]. split.
      * split; [done|]. simpl. split; [lia|]. split; [|left; lia].
        intros j flag Hj Hjlt.
        destruct (decide (j = state self)) as [->|]; [congruence|].
        apply (Hleft j flag Hj). lia.
      * unfold passes_left. simpl. rewrite Hr, Hc.
        apply Z.eqb_neq in Hcentre. rewrite Hcentre.
        destruct (r =? 1); lia.
    + simpl. replace (state self + 1 <? N) with true; [done|].
      symmetry. apply Z.ltb_lt. lia.
    + simpl. destruct (Z.ltb_spec 0 (state self - 1)) as [Hs|Hs]; [|done].
      intros _. unfold avoid_of. rewrite bool_decide_eq_true_2; [done|].
      destruct Hprev as [|?]; [done | lia].
Qed.

Lemma sweeping_run (N : Z) (n : nat) : ∀ self,
  sweeping N self → (passes_left N self ≤ n)%nat →
  ∃ total, run (S n) self = Finished total.
Proof.
  induction n as [|n IH]; intros self Hs Hn.
  - destruct (is_clean (environment self)) eqn:Hc.
    + exists (cost self). simpl. by rewrite tick_clean.
    + destruct (sweeping_step N self Hs Hc) as (? & _ & _ & ?). lia.
  - destruct (is_clean (environment self)) eqn:Hc.
    + exists (cost self). cbn [run]. by rewrite tick_clean.
    + destruct (sweeping_step N self Hs Hc) as (self' & Ht & Hs' & Hlt).
      destruct (IH self' Hs') as [total Hrun]; [lia|].
      exists total. cbn [run]. rewrite Ht. exact Hrun.
Qed.

(** X11.  From [INITIAL_STATE], on a room with the keys [0 .. N-1], [run]
    reaches DONE within [2 * N] passes. *)
Theorem run_from_INITIAL_STATE_finishes (room : gmap Z Z) (N : Z) :
  dense room N → 1 ≤ N →
  ∃ total, run (Z.to_nat (2 * N)) (init room) = Finished total.
Proof.
  intros Hd HN.
  replace (Z.to_nat (2 * N)) with (S (Z.to_nat (2 * N - 1))) by lia.
  apply (sweeping_run N).
  - split; [done|]. simpl. unfold INITIAL_STATE.
    split; [lia|]. split; [|right; lia].
    intros k flag Hk Hlt.
    assert (0 ≤ k < N) by (apply (Hd k); eauto). lia.
  - unfold passes_left. simpl. unfold INITIAL_STATE.
    destruct (room !! 0) as [flag|]; [destruct (flag =? 1)|]; lia.
Qed.

Lemma run_from_INITIAL_STATE_finishes_witness :
  ∃ total, run (Z.to_nat (2 * 3)) (init (room_of [1; 0; 1])) = Finished total.
Proof.
  apply (run_from_INITIAL_STATE_finishes (room_of [1; 0; 1]) 3).
  - apply (dense_room_of [1; 0; 1]).
  - lia.
Defined.

(** * Further properties *)

(** ** The room *)

(** X1.  [is_clean] answers [True] exactly when no cell holds the flag 1,
    and [False] exactly when some cell does: a flag other than 0 and 1
    counts as clean. *)
Theorem is_clean_no_flag_1 (room : gmap Z Z) :
  (is_clean room = true ↔ ∀ k, room !! k ≠ Some 1) ∧
  (is_clean room = false ↔ ∃ k, room !! k = Some 1).
Proof.
  split; [|apply is_clean_false].
  rewrite is_clean_true. split.
  - intros H k Hk. by apply (H k 1).
  - intros H k flag Hk ->. by apply (H k).
Qed.

Lemma update_environment_Some_1 (room : gmap Z Z) (p k : Z) :
  update_environment room p !! k = Some 1 ↔ k ≠ p ∧ room !! k = Some 1.
Proof.
  unfold update_environment. destruct (decide (p = k)) as [->|Hne].
  - rewrite lookup_insert_eq. split; [discriminate | by intros [? _]].
  - rewrite lookup_insert_ne by done.
    split; [intros Hk; split; [congruence | done] | by intros [_ ?]].
Qed.

(** X2.  The cells with flag 1 after [update_environment room p] are those
    of [room] but [p], whatever [p] is; so the room is clean afterwards
    exactly when [p] was the only cell with flag 1, and a clean room stays
    clean. *)
Theorem update_environment_dirty_cells (room : gmap Z Z) (p : Z) :
  (∀ k, update_environment room p !! k = Some 1 ↔ k ≠ p ∧ room !! k = Some 1) ∧
  (is_clean (update_environment room p) = true ↔
     ∀ k, room !! k = Some 1 → k = p) ∧
  (is_clean room = true → is_clean (update_environment room p) = true).
Proof.
  pose proof (update_environment_Some_1 room p) as Hcells.
  split; [exact Hcells|]. split.
  - rewrite is_clean_true. split.
    + intros H k Hk. destruct (decide (k = p)) as [|Hne]; [done|].
      exfalso. apply (H k 1); [|done]. by apply Hcells.
    + intros H k flag Hk ->. apply Hcells in Hk as [Hne Hk]. auto.
  - rewrite !is_clean_true. intros H k flag Hk ->.
    apply Hcells in Hk as [_ Hk]. by apply (H k 1).
Qed.

(** X3.  Inside a dense room [get_environment] does not raise.  The centre
    is the flag at [p]; the right neighbour is the flag at [p + 1] and is
    missing exactly at [p = N - 1]; the left neighbour is the flag at
    [p - 1] but is missing at [p = 0] and at [p = 1]. *)
Theorem get_environment_in_room (room : gmap Z Z) (N p : Z) :
  dense room N → 0 ≤ p < N →
  ∃ percept,
    get_environment room p = Ok percept ∧
    room !! p = Some (Centre percept) ∧
    Right percept = (if bool_decide (p = N - 1) then None else room !! (p + 1)) ∧
    Left percept = (if bool_decide (p ≤ 1) then None else room !! (p - 1)) ∧
    (Right percept = None ↔ p = N - 1) ∧
    (Left percept = None ↔ p ≤ 1).
Proof.
  intros Hd Hp.
  destruct (get_environment_dense room N p Hd Hp) as (centre & Hc & ->).
  eexists. split; [reflexivity|]. simpl. split; [done|].
  destruct (Z.ltb_spec (p + 1) N) as [Hr|Hr];
    destruct (Z.ltb_spec 0 (p - 1)) as [Hl|Hl];
    repeat case_bool_decide; try lia;
    repeat split; try done; try lia; intros Hnone; exfalso.
  all: try (destruct (dense_lookup room N (p + 1) Hd) as [? ?];
            [lia | congruence]).
  all: try (destruct (dense_lookup room N (p - 1) Hd) as [? ?];
            [lia | congruence]).
Qed.

Lemma get_environment_in_room_witness :
  ∃ percept,
    get_environment (room_of [1; 0; 1]) 1 = Ok percept ∧
    room_of [1; 0; 1] !! 1 = Some (Centre percept) ∧
    Right percept
      = (if bool_decide (1 = 3 - 1) then None else room_of [1; 0; 1] !! (1 + 1)) ∧
    Left percept
      = (if bool_decide (1 ≤ 1) then None else room_of [1; 0; 1] !! (1 - 1)) ∧
    (Right percept = None ↔ 1 = 3 - 1) ∧
    (Left percept = None ↔ 1 ≤ 1).
Proof.
  apply (get_environment_in_room (room_of [1; 0; 1]) 3 1).
  - apply (dense_room_of [1; 0; 1]).
  - lia.
Defined.

(** X4.  Cleaning a cell of a dense room and sensing it again: the centre
    is now 0, the neighbours are what they were, the room keeps its keys,
    and cleaning a second time changes nothing. *)
Theorem clean_then_sense (room : gmap Z Z) (N p : Z) :
  dense room N → 0 ≤ p < N →
  ∃ before after,
    get_environment room p = Ok before ∧
    get_environment (update_environment room p) p = Ok after ∧
    Centre after = 0 ∧
    Left after = Left before ∧
    Right after = Right before ∧
    dense (update_environment room p) N ∧
    len (update_environment room p) = len room ∧
    update_environment (update_environment room p) p = update_environment room p.
Proof.
  intros Hd Hp.
  pose proof (dense_update room N p Hd Hp) as Hd'.
  destruct (get_environment_dense room N p Hd Hp) as (c & Hc & ->).
  destruct (get_environment_dense _ N p Hd' Hp) as (c' & Hc' & ->).
  do 2 eexists. split; [reflexivity|]. split; [reflexivity|]. simpl.
  unfold update_environment in *.
  rewrite lookup_insert_eq in Hc'. injection Hc' as <-.
  split; [done|].
  split; [destruct (0 <? p - 1); [by rewrite lookup_insert_ne by lia|done]|].
  split; [destruct (p + 1 <? N); [by rewrite lookup_insert_ne by lia|done]|].
  split; [done|].
  split; [by rewrite (dense_len _ N), (dense_len room N) by (done || lia)|].
  apply insert_insert_eq.
Qed.

Lemma clean_then_sense_witness :
  ∃ before after,
    get_environment (room_of [0; 1; 1]) 1 = Ok before ∧
    get_environment (update_environment (room_of [0; 1; 1]) 1) 1 = Ok after ∧
    Centre after = 0 ∧
    Left after = Left before ∧
    Right after = Right before ∧
    dense (update_environment (room_of [0; 1; 1]) 1) 3 ∧
    len (update_environment (room_of [0; 1; 1]) 1) = len (room_of [0; 1; 1]) ∧
    update_environment (update_environment (room_of [0; 1; 1]) 1) 1
      = update_environment (room_of [0; 1; 1]) 1.
Proof.
  apply (clean_then_sense (room_of [0; 1; 1]) 3 1).
  - apply (dense_room_of [0; 1; 1]).
  - lia.
Defined.

(** ** Candidates and selection *)

Lemma agent_function_keys (percept : Percept) :
  keys (agent_function percept) =
    match Left percept with Some _ => [MoveLeft] | None => [] end ++
    match Right percept with Some _ => [MoveRight] | None => [] end ++
    (if Centre percept =? 1 then [Suck] else []).
Proof.
  unfold agent_function, get_actions, keys. simpl.
  destruct (Left percept), (Right percept), (Centre percept =? 1); reflexivity.
Qed.

Lemma select_Some (self : Vacuum_cleaner) (actions : actions_dict) a :
  select self actions = Some a → a ∈ keys actions.
Proof.
  unfold select. destruct (1 <? Z.of_nat (length actions)); intros Hp;
    by apply pick_action_Some in Hp as [? _].
Qed.

(** Closed decidable goals, by evaluation. *)
Ltac by_decision :=
  match goal with
  | |- ?P => refine (bool_decide_unpack P _); vm_compute; exact I
  end.

(** X5.  The candidates of a percept: no action twice, always in the order
    [move_left], [move_right], [suck], a move scored -2 and [suck] scored 0;
    [move_left] is there exactly when there is a left neighbour,
    [move_right] when there is a right one, [suck] when the centre is 1. *)
Theorem agent_function_candidates (percept : Percept) :
  NoDup (keys (agent_function percept)) ∧
  agent_function percept
    `sublist_of` [(MoveLeft, -2); (MoveRight, -2); (Suck, 0)] ∧
  (MoveLeft ∈ keys (agent_function percept) ↔ Left percept ≠ None) ∧
  (MoveRight ∈ keys (agent_function percept) ↔ Right percept ≠ None) ∧
  (Suck ∈ keys (agent_function percept) ↔ Centre percept = 1).
Proof.
  split; [|split].
  - rewrite agent_function_keys.
    destruct (Left percept), (Right percept), (Centre percept =? 1); simpl;
      by_decision.
  - unfold agent_function, get_actions. simpl.
    destruct (Left percept), (Right percept), (Centre percept =? 1); simpl;
      repeat first [apply sublist_nil | apply sublist_skip | apply sublist_cons].
  - rewrite agent_function_keys.
    destruct (Z.eqb_spec (Centre percept) 1);
      destruct (Left percept), (Right percept); simpl;
      rewrite ?elem_of_cons, ?elem_of_nil;
      intuition (congruence || discriminate).
Qed.

(** X6.  What [run] selects for a percept, in closed form.  A dirty centre
    is always sucked.  Otherwise the agent moves: to the only side there is,
    and with a neighbour on both sides to the right if it has just come from
    the left cell and to the left in every other case.  With no neighbour
    and a clean centre nothing is selected. *)
Theorem select_policy (self : Vacuum_cleaner) (percept : Percept) :
  select self (agent_function percept) =
    if Centre percept =? 1 then Some Suck
    else
      match Left percept, Right percept with
      | Some _, Some _ =>
          if bool_decide (previous_state self = state self - 1)
          then Some MoveRight
          else Some MoveLeft
      | Some _, None => Some MoveLeft
      | None, Some _ => Some MoveRight
      | None, None => None
      end.
Proof.
  unfold agent_function, get_actions, select, avoid_of. simpl.
  destruct (Centre percept =? 1), (Left percept), (Right percept); simpl;
    repeat case_bool_decide; reflexivity || lia.
Qed.

(** X7.  [pick_action] returns [None] exactly when every key of the dict is
    the avoided action; this covers the empty dict. *)
Theorem pick_action_None_iff (actions : actions_dict) (avoid : option action) :
  pick_action actions avoid = None ↔ ∀ b, b ∈ keys actions → Some b = avoid.
Proof.
  split; [apply pick_action_None|].
  unfold pick_action. generalize (keys actions) as ks.
  induction ks as [|a ks IH]; intros Hall; simpl; [done|].
  rewrite bool_decide_eq_false_2.
  - apply IH. intros b Hb. apply Hall. by right.
  - intros Hne. apply Hne, Hall. by left.
Qed.

(** X8.  With more than one candidate the action that would undo the last
    move is never selected: if the selected action is the avoided one, the
    dict has a single entry. *)
Theorem avoided_only_when_alone
    (self : Vacuum_cleaner) (actions : actions_dict) (a : action) :
  select self actions = Some a → avoid_of self = Some a →
  length actions = 1%nat.
Proof.
  unfold select. intros Hsel Havoid.
  destruct (Z.ltb_spec 1 (Z.of_nat (length actions))) as [Hlen|Hlen].
  - apply pick_action_Some in Hsel as [_ Hne]. by rewrite Havoid in Hne.
  - apply pick_action_Some in Hsel as [Hin _].
    destruct actions as [|c l]; [by apply elem_of_nil in Hin|].
    simpl in *. lia.
Qed.

Lemma avoided_only_when_alone_witness :
  let self := move_right (init (room_of [0; 0])) in
  select self [(MoveLeft, -2)] = Some MoveLeft ∧
  avoid_of self = Some MoveLeft ∧
  length [(MoveLeft, -2)] = 1%nat.
Proof.
  intros self. split; [reflexivity|]. split; [reflexivity|].
  apply (avoided_only_when_alone self [(MoveLeft, -2)] MoveLeft);
    reflexivity.
Defined.

(** ** The run loop *)

Lemma tick_Running (self self' : Vacuum_cleaner) :
  tick self = Running self' →
  is_clean (environment self) = false ∧
  ∃ percept a,
    get_environment (environment self) (state self) = Ok percept ∧
    select self (agent_function percept) = Some a ∧
    self' = call a self.
Proof.
  unfold tick. destruct (is_clean (environment self)); [done|].
  destruct (get_environment _ _) as [percept|]; [|done].
  destruct (select _ _) as [a|] eqn:Hsel; [|done].
  intros [= <-]. split; [done|]. by exists percept, a.
Qed.

Lemma call_cost (a : action) (self : Vacuum_cleaner) :
  cost (call a self) = cost self + 1 ∧
  performance (call a self) = performance self - 1.
Proof. by destruct a. Qed.

(** One pass from a cell of a dense room: no [KeyError]; the agent stays in
    the room, the room keeps its keys, and from a cell other than 0 the
    agent neither reaches cell 0 nor changes it. *)
Lemma tick_in_room (N : Z) (self : Vacuum_cleaner) :
  in_room N self →
  match tick self with
  | Finished total => is_clean (environment self) = true ∧ total = cost self
  | Running self' =>
      in_room N self' ∧
      (1 ≤ state self →
       1 ≤ state self' ∧ environment self' !! 0 = environment self !! 0)
  | Aborted e => e = TypeError_not_callable
  end.
Proof.
  intros [Hd Hp]. unfold tick.
  destruct (is_clean (environment self)); [done|].
  destruct (get_environment_dense _ N _ Hd Hp) as (centre & Hc & ->).
  destruct (select _ _) as [a|] eqn:Hsel; [|done].
  apply select_Some in Hsel. rewrite agent_function_keys in Hsel. simpl in Hsel.
  destruct (Z.ltb_spec 0 (state self - 1)) as [Hl|Hl];
    destruct (Z.ltb_spec (state self + 1) N) as [Hr|Hr].
  all: try (destruct (dense_lookup _ N (state self - 1) Hd) as [l Hlk];
            [lia | rewrite Hlk in Hsel]).
  all: try (destruct (dense_lookup _ N (state self + 1) Hd) as [r Hrk];
            [lia | rewrite Hrk in Hsel]).
  all: destruct (centre =? 1); simpl in Hsel;
    rewrite ?elem_of_cons, ?elem_of_nil in Hsel;
    destruct a; try (exfalso; intuition discriminate).
  all: unfold in_room; simpl;
    (split; [split; [by apply dense_update || done | lia]|]);
    intros H1; (split; [lia|]); try done.
  all: unfold update_environment; by rewrite lookup_insert_ne by lia.
Qed.

(** X9.  Started on a cell of a dense room, [run] never raises [KeyError]:
    after any number of passes the agent is on a cell of the room, which has
    kept its keys, unless the run finished or stopped on an empty
    selection. *)
Theorem run_in_room (N : Z) (fuel : nat) (self : Vacuum_cleaner) :
  in_room N self →
  match run fuel self with
  | Finished _ => True
  | Running self' => in_room N self'
  | Aborted e => e = TypeError_not_callable
  end.
Proof.
  revert self. induction fuel as [|fuel IH]; intros self Hin; simpl; [done|].
  pose proof (tick_in_room N self Hin) as Htick.
  destruct (tick self) as [total|self'|e]; [done| |done].
  apply IH. by destruct Htick.
Qed.

Lemma run_in_room_witness :
  match run 2 (init (room_of [1; 0; 1])) with
  | Finished _ => True
  | Running self' => in_room 3 self'
  | Aborted e => e = TypeError_not_callable
  end.
Proof.
  apply (run_in_room 3 2 (init (room_of [1; 0; 1]))).
  split; [apply (dense_room_of [1; 0; 1]) | simpl; unfold INITIAL_STATE; lia].
Defined.

(** X10.  Every pass that executes an action adds 1 to the cost and takes 1
    off the performance, so that their sum never changes; the total reported
    at the end is the cost at the start plus the number of actions executed,
    which is less than the number of passes. *)
Theorem run_cost (fuel : nat) (self : Vacuum_cleaner) :
  match run fuel self with
  | Finished total => cost self ≤ total < cost self + Z.of_nat fuel
  | Running self' =>
      cost self' = cost self + Z.of_nat fuel ∧
      performance self' = performance self - Z.of_nat fuel
  | Aborted _ => True
  end.
Proof.
  revert self. induction fuel as [|fuel IH]; intros self.
  - simpl. lia.
  - cbn [run]. destruct (tick self) as [total|self'|e] eqn:Htick; [| |done].
    + unfold tick in Htick. destruct (is_clean _); [|by repeat case_match].
      injection Htick as <-. lia.
    + apply tick_Running in Htick as (_ & percept & a & _ & _ & ->).
      destruct (call_cost a self) as [Hc Hp].
      specialize (IH (call a self)).
      destruct (run fuel (call a self)); [| |done]; lia.
Qed.

(** *** The cost of the sweep *)

Lemma dirty_clean (room : gmap Z Z) :
  is_clean room = true → dirty room = ∅.
Proof.
  rewrite is_clean_true. intros H. apply map_empty. intros k.
  apply map_lookup_filter_None. destruct (room !! k) as [flag|] eqn:Hk; [|by left].
  right. intros x [= <-]. simpl. by apply (H k).
Qed.

Lemma dirty_update (room : gmap Z Z) (p : Z) :
  room !! p = Some 1 →
  S (size (dirty (update_environment room p))) = size (dirty room).
Proof.
  intros Hp. unfold dirty, update_environment.
  rewrite map_filter_insert_False by (simpl; lia).
  rewrite map_filter_delete.
  assert (filter (λ cell : Z * Z, cell.2 = 1) room !! p = Some 1) as Hf
    by (by apply map_lookup_filter_Some).
  rewrite map_size_delete_Some by eauto.
  assert (size (filter (λ cell : Z * Z, cell.2 = 1) room) ≠ 0%nat); [|lia].
  by eapply map_size_ne_0_lookup_2.
Qed.

(** The sweep sucks on a dirty cell and moves right on a clean one. *)
Lemma sweeping_tick (N : Z) (self : Vacuum_cleaner) (centre : Z) :
  sweeping N self → is_clean (environment self) = false →
  environment self !! state self = Some centre →
  tick self =
    Running (if bool_decide (centre = 1) then suck self else move_right self).
Proof.
  intros (Hd & Hp & Hleft & Hprev) Hdirty Hcentre.
  destruct (get_environment_dense _ N _ Hd Hp) as (c & Hc & Hsense).
  assert (c = centre) as -> by congruence.
  unfold tick. rewrite Hdirty, Hsense.
  case_bool_decide as Hone.
  - by rewrite select_suck.
  - apply is_clean_false in Hdirty as [k Hk].
    assert (0 ≤ k < N) as HkN by (apply (Hd k); eauto).
    assert (state self < k) as Hlt.
    { destruct (Z.lt_trichotomy k (state self)) as [Hlt|[Heq|Hgt]]; [| |done].
      - by destruct (Hleft k 1 Hk Hlt).
      - rewrite Heq, Hcentre in Hk. congruence. }
    destruct (dense_lookup _ N (state self + 1) Hd) as [r Hr]; [lia|].
    rewrite (select_move_right _ _ r); [done|done|..]; simpl.
    + replace (state self + 1 <? N) with true; [done|].
      symmetry. apply Z.ltb_lt. lia.
    + destruct (Z.ltb_spec 0 (state self - 1)) as [Hs|Hs]; [|done].
      intros _. unfold avoid_of. rewrite bool_decide_eq_true_2; [done|].
      destruct Hprev as [|?]; [done | lia].
Qed.

Lemma sweeping_to_step (N d total : Z) (self : Vacuum_cleaner) :
  sweeping_to N d total self → is_clean (environment self) = false →
  ∃ self', tick self = Running self' ∧ sweeping_to N d total self' ∧
           (passes_left N self' < passes_left N self)%nat.
Proof.
  intros (Hsw & Hbeyond & Hd & Htotal) Hdirty.
  destruct (sweeping_step N self Hsw Hdirty) as (self' & Htick & Hsw' & Hlt).
  exists self'. split; [done|]. split; [|done]. split; [done|].
  destruct Hd as [[Hd Hle]|[_ Hclean]]; [|congruence].
  pose proof Hsw as (Hdense & Hp & Hleft & _).
  destruct (dense_lookup _ N (state self) Hdense Hp) as [centre Hcentre].
  rewrite (sweeping_tick N self centre Hsw Hdirty Hcentre) in Htick.
  injection Htick as <-. case_bool_decide as Hone.
  - subst centre. simpl. split; [|split].
    + intros k Hk Hone. apply update_environment_Some_1 in Hone as [_ Hone].
      by apply (Hbeyond k).
    + destruct (decide (state self = d)) as [Heq|Hne].
      * right. split; [done|]. apply is_clean_true. intros k flag Hk ->.
        apply update_environment_Some_1 in Hk as [Hkne Hk].
        destruct (Z.lt_trichotomy k d) as [Hlt'|[->|Hgt]]; [|done|].
        -- apply (Hleft k 1 Hk); [lia|done].
        -- by apply (Hbeyond k).
      * left. split; [|done]. apply update_environment_Some_1. split; [done|done].
    + pose proof (dirty_update _ _ Hcentre). lia.
  - simpl. split; [done|]. split; [|lia].
    left. split; [done|].
    destruct (decide (state self = d)) as [Heq|Hne]; [|lia].
    rewrite Heq, Hd in Hcentre. congruence.
Qed.

Lemma sweeping_to_run (N d total : Z) (n : nat) : ∀ self,
  sweeping_to N d total self → (passes_left N self ≤ n)%nat →
  run (S n) self = Finished total.
Proof.
  assert (∀ self, sweeping_to N d total self →
            is_clean (environment self) = true →
            tick self = Finished total) as Hdone.
  { intros self (_ & _ & Hd & Htotal) Hclean.
    rewrite tick_clean by done. f_equal.
    rewrite (dirty_clean _ Hclean), map_size_empty in Htotal.
    destruct Hd as [[Hd _]|[Hd _]]; [|lia].
    rewrite is_clean_true in Hclean. by destruct (Hclean d 1 Hd). }
  induction n as [|n IH]; intros self Hs Hn;
    destruct (is_clean (environment self)) eqn:Hc.
  - simpl. by rewrite Hdone.
  - destruct (sweeping_to_step N d total self Hs Hc) as (? & _ & _ & ?). lia.
  - cbn [run]. by rewrite Hdone.
  - destruct (sweeping_to_step N d total self Hs Hc) as (self' & Ht & Hs' & Hlt).
    cbn [run]. rewrite Ht. apply IH; [done | lia].
Qed.

(** X12.  From [INITIAL_STATE], on a room with the keys [0 .. N-1] whose
    last dirty cell is [d], [run] finishes and the total cost it reports is
    [d] plus the number of dirty cells: one move for each cell up to [d] and
    one [suck] for each dirty cell. *)
Theorem run_total_cost (room : gmap Z Z) (N d : Z) :
  dense room N → room !! d = Some 1 → (∀ k, d < k → room !! k ≠ Some 1) →
  run (Z.to_nat (2 * N)) (init room)
    = Finished (d + Z.of_nat (size (dirty room))).
Proof.
  intros Hd Hdirty Hlast.
  assert (0 ≤ d < N) as HdN by (apply (Hd d); eauto).
  replace (Z.to_nat (2 * N)) with (S (Z.to_nat (2 * N - 1))) by lia.
  apply (sweeping_to_run N d).
  - split; [|split; [done|split]].
    + split; [done|]. simpl. unfold INITIAL_STATE.
      split; [lia|]. split; [|right; lia].
      intros k flag Hk Hlt.
      assert (0 ≤ k < N) by (apply (Hd k); eauto). lia.
    + left. split; [done|]. simpl. unfold INITIAL_STATE. lia.
    + simpl. unfold INITIAL_STATE. lia.
  - unfold passes_left. simpl. unfold INITIAL_STATE.
    destruct (room !! 0) as [flag|]; [destruct (flag =? 1)|]; lia.
Qed.

Lemma run_total_cost_witness :
  run (Z.to_nat (2 * 7)) (init main_room)
    = Finished (6 + Z.of_nat (size (dirty main_room))).
Proof.
  apply (run_total_cost main_room 7 6).
  - apply (dense_room_of [0; 0; 1; 0; 1; 0; 1]).
  - reflexivity.
  - intros k Hk.
    rewrite (dense_lookup_None main_room 7 k); [discriminate | | lia].
    apply (dense_room_of [0; 0; 1; 0; 1; 0; 1]).
Defined.

(** *** What the agent cannot reach *)

(** X13.  An agent on a cell other than 0 of a dense room never arrives on
    cell 0 and never changes it, since [move_left] is a candidate only from
    cell 2 on; so [run] can finish only if cell 0 is not dirty, and with a
    dirty cell 0 it goes on for ever or stops on an empty selection. *)
Theorem cell_0_out_of_reach (N : Z) (fuel : nat) (self : Vacuum_cleaner) :
  in_room N self → 1 ≤ state self →
  match run fuel self with
  | Finished _ => environment self !! 0 ≠ Some 1
  | Running self' =>
      1 ≤ state self' ∧ environment self' !! 0 = environment self !! 0
  | Aborted e => e = TypeError_not_callable
  end.
Proof.
  revert self. induction fuel as [|fuel IH]; intros self Hin Hpos; simpl.
  - done.
  - pose proof (tick_in_room N self Hin) as Htick.
    destruct (tick self) as [total|self'|e]; [| |done].
    + destruct Htick as [Hclean _]. rewrite is_clean_true in Hclean.
      intros H0. by apply (Hclean 0 1).
    + destruct Htick as [Hin' Hkeep]. destruct (Hkeep Hpos) as [Hpos' H0].
      specialize (IH self' Hin' Hpos'). rewrite H0 in IH. exact IH.
Qed.

Lemma cell_0_out_of_reach_witness :
  match run 5 (init_at 2 (room_of [1; 0; 1])) with
  | Finished _ => room_of [1; 0; 1] !! 0 ≠ Some 1
  | Running self' =>
      1 ≤ state self' ∧ environment self' !! 0 = room_of [1; 0; 1] !! 0
  | Aborted e => e = TypeError_not_callable
  end.
Proof.
  apply (cell_0_out_of_reach 3 5 (init_at 2 (room_of [1; 0; 1]))).
  - split; [apply (dense_room_of [1; 0; 1]) | simpl; lia].
  - simpl. lia.
Defined.

(** X14.  Inside a dense room a pass stops on an empty selection, with
    [TypeError], in one situation only: the room has two cells, the agent is
    on cell 1, which is clean, and cell 0 is dirty. *)
Theorem tick_TypeError_iff (N : Z) (self : Vacuum_cleaner) :
  in_room N self →
  (tick self = Aborted TypeError_not_callable ↔
   N = 2 ∧ state self = 1 ∧
   environment self !! 0 = Some 1 ∧ environment self !! 1 ≠ Some 1).
Proof.
  intros [Hd Hp].
  destruct (get_environment_dense _ N _ Hd Hp) as (centre & Hc & Hsense).
  unfold tick. rewrite Hsense. clear Hsense. split.
  - destruct (is_clean (environment self)) eqn:Hclean; [done|].
    apply is_clean_false in Hclean as [k Hk].
    assert (0 ≤ k < N) as HkN by (apply (Hd k); eauto).
    unfold agent_function, get_actions, select, avoid_of. simpl.
    destruct (Z.ltb_spec 0 (state self - 1)) as [Hl|Hl];
      destruct (Z.ltb_spec (state self + 1) N) as [Hr|Hr].
    all: try (destruct (dense_lookup _ N (state self - 1) Hd) as [l Hlk];
              [lia | rewrite Hlk]).
    all: try (destruct (dense_lookup _ N (state self + 1) Hd) as [r Hrk];
              [lia | rewrite Hrk]).
    all: destruct (Z.eqb_spec centre 1) as [->|Hcentre]; simpl;
      repeat case_bool_decide; try discriminate.
    intros _.
    assert (k ≠ state self) as Hne by (intros ->; congruence).
    assert (N = 2 ∧ state self = 1 ∧ k = 0) as (-> & Hs & ->) by lia.
    rewrite Hs in Hc. rewrite Hc. split; [done|]. split; [done|].
    split; [done | congruence].
  - intros (-> & Hs & H0 & H1). rewrite Hs in *.
    replace (is_clean (environment self)) with false
      by (symmetry; apply is_clean_false; eauto).
    assert (centre ≠ 1) as Hcentre by congruence.
    apply Z.eqb_neq in Hcentre.
    unfold agent_function, get_actions, select. simpl. by rewrite Hcentre.
Qed.

Lemma tick_TypeError_iff_witness :
  tick (init_at 1 (room_of [1; 0])) = Aborted TypeError_not_callable ↔
  2 = 2 ∧ state (init_at 1 (room_of [1; 0])) = 1 ∧
  environment (init_at 1 (room_of [1; 0])) !! 0 = Some 1 ∧
  environment (init_at 1 (room_of [1; 0])) !! 1 ≠ Some 1.
Proof.
  apply (tick_TypeError_iff 2 (init_at 1 (room_of [1; 0]))).
  split; [apply (dense_room_of [1; 0]) | simpl; lia].
Defined.

(** *** [main] *)

Lemma run_Finished_more (n m : nat) (self : Vacuum_cleaner) (total : Z) :
  run n self = Finished total → (n ≤ m)%nat → run m self = Finished total.
Proof.
  intros Hrun Hle. replace m with (n + (m - n))%nat by lia.
  by rewrite run_add, Hrun.
Qed.

(** X15.  [main] finishes, on its room [{0: 0, 1: 0, 2: 1, 3: 0, 4: 1, 5: 0,
    6: 1}], after nine actions and reports the total cost 9: ten passes are
    enough and more passes change nothing. *)
Theorem main_total_cost (fuel : nat) :
  (10 ≤ fuel)%nat → main fuel = Finished 9.
Proof.
  intros Hfuel. unfold main. apply (run_Finished_more 10); [|done].
  vm_compute. reflexivity.
Qed.

Lemma main_total_cost_witness : main 12 = Finished 9.
Proof. apply (main_total_cost 12). lia. Defined.

(** *** When [run] finishes *)

Lemma select_move_left (self : Vacuum_cleaner) (percept : Percept) l :
  Centre percept ≠ 1 → Left percept = Some l →
  (Right percept ≠ None → previous_state self ≠ state self - 1) →
  select self (agent_function percept) = Some MoveLeft.
Proof.
  intros Hc Hl Hr. unfold agent_function, get_actions.
  rewrite Hl. apply Z.eqb_neq in Hc. rewrite Hc. simpl.
  destruct (Right percept) as [r|]; unfold select, avoid_of; simpl.
  - rewrite bool_decide_eq_false_2 by auto.
    case_bool_decide; reflexivity.
  - reflexivity.
Qed.

(** One pass from cell 2 or beyond. *)
Lemma tick_beyond_1 (N : Z) (self : Vacuum_cleaner) (centre : Z) :
  in_room N self → 2 ≤ state self →
  is_clean (environment self) = false →
  environment self !! state self = Some centre →
  tick self =
    Running
      (if bool_decide (centre = 1) then suck self
       else if bool_decide (previous_state self = state self - 1 ∧
                            state self + 1 < N)
            then move_right self
            else move_left self).
Proof.
  intros [Hd Hp] H2 Hdirty Hcentre.
  destruct (get_environment_dense _ N _ Hd Hp) as (c & Hc & Hsense).
  assert (c = centre) as -> by congruence.
  unfold tick. rewrite Hdirty, Hsense.
  destruct (dense_lookup _ N (state self - 1) Hd) as [l Hl]; [lia|].
  case_bool_decide as Hone; [by rewrite select_suck|].
  case_bool_decide as Hright.
  - destruct Hright as [Hprev Hr].
    destruct (dense_lookup _ N (state self + 1) Hd) as [r Hrk]; [lia|].
    rewrite (select_move_right _ _ r); [done|done|..]; simpl.
    + replace (state self + 1 <? N) with true; [done|].
      symmetry. apply Z.ltb_lt. lia.
    + intros _. unfold avoid_of. by rewrite bool_decide_eq_true_2.
  - rewrite (select_move_left _ _ l); [done|done|..]; simpl.
    + replace (0 <? state self - 1) with true; [done|].
      symmetry. apply Z.ltb_lt. lia.
    + destruct (Z.ltb_spec (state self + 1) N) as [Hr|Hr]; [|done].
      intros _ Hprev. apply Hright. done.
Qed.

(** An agent on a cell other than 0 finishes or comes to stand on cell 1,
    with cell 0 as it was. *)
Lemma reach_cell_1 (N : Z) (n : nat) : ∀ self,
  in_room N self → 1 ≤ state self → (way_back N self ≤ n)%nat →
  (∃ m total, run m self = Finished total) ∨
  (∃ m self', run m self = Running self' ∧ in_room N self' ∧
              state self' = 1 ∧
              environment self' !! 0 = environment self !! 0).
Proof.
  induction n as [n IH] using lt_wf_ind. intros self Hin Hpos Hn.
  destruct (decide (state self = 1)) as [H1|H1].
  { right. exists 0%nat, self. by simpl. }
  destruct (is_clean (environment self)) eqn:Hclean.
  { left. exists 1%nat, (cost self). simpl. by rewrite tick_clean. }
  pose proof Hin as [Hd Hp].
  destruct (dense_lookup _ N (state self) Hd Hp) as [centre Hcentre].
  pose proof (tick_beyond_1 N self centre Hin ltac:(lia) Hclean Hcentre)
    as Htick.
  assert (∀ self', tick self = Running self' →
            (way_back N self' < way_back N self)%nat →
            (∃ m total, run m self = Finished total) ∨
            (∃ m self'', run m self = Running self'' ∧ in_room N self'' ∧
                         state self'' = 1 ∧
                         environment self'' !! 0 = environment self !! 0))
    as Hgo.
  { intros self' Ht Hless.
    pose proof (tick_in_room N self Hin) as Hroom. rewrite Ht in Hroom.
    destruct Hroom as [Hin' Hkeep]. destruct (Hkeep Hpos) as [Hpos' H0].
    destruct (IH (way_back N self') ltac:(lia) self' Hin' Hpos' ltac:(lia))
      as [(m & total & Hrun)|(m & self'' & Hrun & Hin'' & Hs & H0')].
    - left. exists (S m), total. cbn [run]. by rewrite Ht.
    - right. exists (S m), self''. cbn [run]. rewrite Ht.
      split; [done|]. split; [done|]. split; [done|]. by rewrite H0'. }
  destruct (decide (centre = 1)) as [Hone|Hone].
  - rewrite bool_decide_eq_true_2 in Htick by done.
    apply (Hgo _ Htick). unfold way_back. simpl. unfold update_environment.
    rewrite lookup_insert_eq, Hcentre, Hone. simpl. lia.
  - rewrite bool_decide_eq_false_2 in Htick by done.
    apply Z.eqb_neq in Hone.
    destruct (decide (previous_state self = state self - 1 ∧
                      state self + 1 < N)) as [Hright|Hright].
    + rewrite bool_decide_eq_true_2 in Htick by done.
      apply (Hgo _ Htick). unfold way_back. simpl.
      rewrite Hcentre, Hone, (bool_decide_eq_true_2 _ Hright).
      destruct (environment self !! (state self + 1)) as [f|];
        [destruct (f =? 1)|]; case_bool_decide; lia.
    + rewrite bool_decide_eq_false_2 in Htick by done.
      apply (Hgo _ Htick). unfold way_back. simpl.
      rewrite Hcentre, Hone, (bool_decide_eq_false_2 _ Hright).
      rewrite bool_decide_eq_false_2 by lia.
      destruct (environment self !! (state self - 1)) as [f|];
        [destruct (f =? 1)|]; lia.
Qed.

Lemma never_finishes (N : Z) (fuel : nat) : ∀ self total,
  in_room N self → 1 ≤ state self → environment self !! 0 = Some 1 →
  run fuel self ≠ Finished total.
Proof.
  induction fuel as [|fuel IH]; intros self total Hin Hpos H0; simpl; [done|].
  pose proof (tick_in_room N self Hin) as Htick.
  destruct (tick self) as [t|self'|e]; [| |done].
  - destruct Htick as [Hclean _]. rewrite is_clean_true in Hclean.
    by destruct (Hclean 0 1 H0).
  - destruct Htick as [Hin' Hkeep]. destruct (Hkeep Hpos) as [Hpos' H0'].
    apply (IH self' total Hin' Hpos'). by rewrite H0'.
Qed.

Lemma sweeping_from_left_end (N : Z) (self : Vacuum_cleaner) :
  in_room N self → state self ≤ 1 →
  (state self = 0 ∨ environment self !! 0 ≠ Some 1) →
  sweeping N self.
Proof.
  intros [Hd Hp] Hle Hzero. split; [done|]. split; [done|].
  split; [|by right]. intros k flag Hk Hlt ->.
  assert (0 ≤ k < N) by (apply (Hd k); eauto).
  assert (k = 0) as -> by lia. destruct Hzero as [?|Hz]; [lia | done].
Qed.

(** X16.  For an agent on a cell of a room with the keys [0 .. N-1],
    whatever its previous position: [run] finishes if and only if the agent
    stands on cell 0 or cell 0 is not dirty. *)
Theorem run_finishes_iff (N : Z) (self : Vacuum_cleaner) :
  in_room N self →
  ((∃ fuel total, run fuel self = Finished total) ↔
   (state self = 0 ∨ environment self !! 0 ≠ Some 1)).
Proof.
  intros Hin. pose proof Hin as [Hd Hp]. split.
  - intros (fuel & total & Hrun).
    destruct (decide (state self = 0)) as [|Hne]; [by left|]. right.
    intros H0. apply (never_finishes N fuel self total); [done|lia|done|done].
  - intros Hzero.
    assert (∀ self', sweeping N self' → ∃ fuel total,
              run fuel self' = Finished total) as Hsweep.
    { intros self' Hs.
      destruct (sweeping_run N (passes_left N self') self' Hs) as [t Ht];
        [lia|]. eauto. }
    destruct (decide (state self = 0)) as [Hs0|Hs0].
    { apply Hsweep. apply sweeping_from_left_end; [done | lia | by left]. }
    destruct Hzero as [?|Hzero]; [done|].
    destruct (reach_cell_1 N (way_back N self) self Hin)
      as [(m & total & Hrun)|(m & self' & Hrun & Hin' & Hs & H0)];
      [lia | lia | eauto |].
    destruct (Hsweep self') as (fuel & total & Hfin).
    { apply sweeping_from_left_end; [done | lia |]. right. by rewrite H0. }
    exists (m + fuel)%nat, total. by rewrite run_add, Hrun.
Qed.

Lemma run_finishes_iff_witness :
  (∃ fuel total, run fuel (init_at 2 (room_of [0; 1; 1])) = Finished total) ↔
  (state (init_at 2 (room_of [0; 1; 1])) = 0 ∨
   environment (init_at 2 (room_of [0; 1; 1])) !! 0 ≠ Some 1).
Proof.
  apply (run_finishes_iff 3 (init_at 2 (room_of [0; 1; 1]))).
  split; [apply (dense_room_of [0; 1; 1]) | simpl; lia].
Defined.
